(** * node-aad-demo: the sign-in glue of [app.js] and [config.js]

    A shallow embedding of the parts of the application that are its own:
    the in-memory user directory [loggedInUsers], [findUser], the two
    session callbacks given to passport, the OIDC verify callback, the
    [ensureAuthenticated] guard and the [/api] and [/logout] routes.

    The libraries (express, express-session, passport, passport-azure-ad)
    are not modelled.  What the code hands to them is recorded: a call of a
    [done] callback is appended to a log, a response is a list of actions,
    and what the code reads from them ([req.isAuthenticated()], the error
    that [req.session.destroy] reports) is a field of the request.

    The one exception is the way passport reads the answers of the two
    session callbacks, modelled after passport's own code, to say what an
    answer of the application means to its caller. *)

From Stdlib Require Import Floats.SpecFloat.
From stdpp Require Import gmap strings list pretty.

(** ** JavaScript values *)

(** Objects live in a store and are handled by reference. *)
Definition loc := nat.

(** The values a claim of a decoded token can take, and [undefined] for a
    property that is not there.  Numbers are IEEE 754 values; [spec_float]
    also has the values a double cannot hold, which no definition below
    tells apart from the others. *)
Inductive JsValue : Type :=
  | JUndefined
  | JNull
  | JBoolean (b : bool)
  | JNumber (x : spec_float)
  | JString (s : string)
  | JObject (l : loc).

(** An [Error] object, with its message; [null] in the place of an error
    is [None]. *)
Inductive Error : Type :=
  | NewError (message : string).

(** ToBoolean: what [if (v)] and [!v] test. *)
Definition truthy (v : JsValue) : bool :=
  match v with
  | JUndefined | JNull => false
  | JBoolean b => b
  | JNumber (S754_zero _) | JNumber S754_nan => false
  | JNumber _ => true
  | JString s => negb (String.eqb s "")
  | JObject _ => true
  end.

(** [a === b]: no conversion, numbers by value ([NaN] differs from itself,
    the two zeros are equal), objects by reference. *)
Definition strict_equals (a b : JsValue) : bool :=
  match a, b with
  | JUndefined, JUndefined => true
  | JNull, JNull => true
  | JBoolean x, JBoolean y => Bool.eqb x y
  | JNumber x, JNumber y => SFeqb x y
  | JString s, JString t => String.eqb s t
  | JObject l, JObject k => Nat.eqb l k
  | _, _ => false
  end.

(** [Array.prototype.find] on an array of objects: the first element that
    satisfies the predicate, or [undefined]. *)
Definition array_find (f : loc → bool) (a : list loc) : JsValue :=
  match List.find f a with
  | Some x => JObject x
  | None => JUndefined
  end.

(** The two characters of the pattern of app.js:148. *)
Definition backslash : Ascii.ascii := Ascii.ascii_of_nat 92.
Definition double_quote : Ascii.ascii := Ascii.ascii_of_nat 34.

(** app.js:148, the [replace] applied to the output of [JSON.stringify]:
    its pattern is a backslash followed by a double quote, with the flag
    [g], and its replacement is the double quote.  The string is read from
    the left; where the pattern matches, the two characters are replaced
    and reading goes on behind them; any other character is kept. *)
Fixpoint replace_escaped_quotes (s : string) : string :=
  match s with
  | EmptyString => EmptyString
  | String c s' =>
      match s' with
      | EmptyString => String c EmptyString
      | String q s'' =>
          if Ascii.eqb c backslash && Ascii.eqb q double_quote
          then String double_quote (replace_escaped_quotes s'')
          else String c (replace_escaped_quotes s')
      end
  end.

(** The number of times a character occurs in a string. *)
Fixpoint occurrences (c : Ascii.ascii) (s : string) : nat :=
  match s with
  | EmptyString => 0
  | String x s' => (if Ascii.eqb x c then 1 else 0) + occurrences c s'
  end.

(** ** config.js *)

Module config.

Definition tenantName : string := "YOUR_TENANT_NAME".
Definition clientID : string := "YOUR_CLIENT_UD".
Definition clientSecret : string := "YOUR_CLIENT_SECRET".
Definition serverPort : N := 3000.

Definition resourceURL : string := "https://graph.windows.net".

(** The template literal converts the port to its decimal digits. *)
Definition destroySessionUrl : string :=
  "https://login.microsoftonline.com/common/oauth2/logout?post_logout_redirect_uri=http://localhost:"
    +:+ pretty serverPort.

End config.

(** ** The state of the process *)

(** A [done] callback of the framework is opaque; it is named, and each
    call of it is logged with its two arguments. *)
Definition Callback := nat.

Inductive Call : Type :=
  | Called (done : Callback) (err : option Error) (value : JsValue).

(** The closure that the verify callback gives to [process.nextTick]
    (app.js:89-104); it captures [profile] and [done]. *)
Record Tick : Type := MkTick {
  tick_profile : loc;
  tick_done : Callback
}.

Record State : Type := MkState {
  loggedInUsers : list loc;     (* const loggedInUsers = [] *)
  nextTickQueue : list Tick;    (* callbacks waiting in process.nextTick *)
  calls : list Call             (* the calls of done callbacks so far *)
}.

(** Process start: [const loggedInUsers = []], nothing scheduled. *)
Definition init : State :=
  {| loggedInUsers := []; nextTickQueue := []; calls := [] |}.

(** [done(err, value)] *)
Definition call (done : Callback) (err : option Error) (value : JsValue)
    (st : State) : State :=
  {| loggedInUsers := loggedInUsers st;
     nextTickQueue := nextTickQueue st;
     calls := calls st ++ [Called done err value] |}.

(** [loggedInUsers.push(profile)] *)
Definition push (profile : loc) (st : State) : State :=
  {| loggedInUsers := loggedInUsers st ++ [profile];
     nextTickQueue := nextTickQueue st;
     calls := calls st |}.

(** [process.nextTick(callback)] *)
Definition process_nextTick (callback : Tick) (st : State) : State :=
  {| loggedInUsers := loggedInUsers st;
     nextTickQueue := nextTickQueue st ++ [callback];
     calls := calls st |}.

(** The state with its queue of deferred callbacks replaced. *)
Definition set_nextTickQueue (q : list Tick) (st : State) : State :=
  {| loggedInUsers := loggedInUsers st;
     nextTickQueue := q;
     calls := calls st |}.

(** The requests as the handlers see them. *)
Record Request : Type := MkRequest {
  isAuthenticated : bool;          (* the result of req.isAuthenticated() *)
  destroy_error : option Error     (* what req.session.destroy gives its callback *)
}.

(** What a handler does to the response and, through passport, to the
    request. *)
Inductive Action : Type :=
  | Redirect (url : string)                 (* res.redirect(url) *)
  | Send (body : gmap string JsValue)       (* res.send(body) *)
  | SessionDestroy                          (* req.session.destroy(...) *)
  | LogOut.                                 (* req.logOut() *)

(** A store for the examples: two profile objects of one user, a profile
    with no [oid], and one whose [oid] is empty. *)
Definition example_heap (l : loc) : gmap string JsValue :=
  match l with
  | 0 => {[ "oid" := JString "abc"; "displayName" := JString "Ada" ]}
  | 1 => {[ "oid" := JString "abc" ]}
  | 2 => {[ "displayName" := JString "Bob" ]}
  | 3 => {[ "oid" := JString "" ]}
  | _ => ∅
  end.

(** A store with the profiles of two users. *)
Definition example_heap_two (l : loc) : gmap string JsValue :=
  match l with
  | 0 => {[ "oid" := JString "abc" ]}
  | 1 => {[ "oid" := JString "xyz" ]}
  | _ => ∅
  end.

(** ** app.js *)

Section App.

(** The object store.  The code never writes a property of an object, so
    the store is the same throughout; an object that a library creates
    later is a reference not used before. *)
Variable heap : loc → gmap string JsValue.

(** [o.key]; a property that is absent reads as [undefined]. *)
Definition get (o : loc) (key : string) : JsValue :=
  default JUndefined (heap o !! key).

(** app.js:42-45.  The array is the global [loggedInUsers], passed
    explicitly. *)
Definition findUser {R : Type} (users : list loc) (oid : JsValue)
    (callback : option Error → JsValue → R) : R :=
  let user := array_find (λ user, strict_equals (get user "oid") oid) users in
  callback None user.

(** app.js:56-58 *)
Definition serializeUser {R : Type} (user : loc)
    (done : option Error → JsValue → R) : R :=
  done None (get user "oid").

(** app.js:60-62 *)
Definition deserializeUser {R : Type} (users : list loc) (oid : JsValue)
    (done : option Error → JsValue → R) : R :=
  findUser users oid (λ err user, done err user).

(** app.js:90-103, the body of the deferred callback. *)
Definition nextTick_callback (t : Tick) (st : State) : State :=
  let profile := tick_profile t in
  let done := tick_done t in
  findUser (loggedInUsers st) (get profile "oid") (λ err user,
    match err with
    | Some e => call done (Some e) JNull st
    | None =>
        if negb (truthy user) then
          (* "Auto-registration" *)
          call done None (JObject profile) (push profile st)
        else
          call done None user st
    end).

(** app.js:82-105, the verify callback of the OIDC strategy.  [iss],
    [sub], [accessToken] and [refreshToken] are never read and are left
    out. *)
Definition verify (profile : loc) (done : Callback) (st : State) : State :=
  if negb (truthy (get profile "oid")) then
    call done (Some (NewError "No oid found")) JNull st
  else
    (* asynchronous verification, for effect... *)
    process_nextTick {| tick_profile := profile; tick_done := done |} st.

(** The event loop takes the oldest waiting callback and runs it. *)
Definition runTick (st : State) : State :=
  match nextTickQueue st with
  | [] => st
  | t :: q =>
      nextTick_callback t
        {| loggedInUsers := loggedInUsers st;
           nextTickQueue := q;
           calls := calls st |}
  end.

(** What can happen to the state: the framework calls one of the three
    callbacks, or the event loop runs a deferred callback. *)
Inductive Op : Type :=
  | CallVerify (profile : loc) (done : Callback)
  | RunTick
  | CallSerializeUser (user : loc) (done : Callback)
  | CallDeserializeUser (oid : JsValue) (done : Callback).

Definition exec (op : Op) (st : State) : State :=
  match op with
  | CallVerify profile done => verify profile done st
  | RunTick => runTick st
  | CallSerializeUser user done => serializeUser user (call done) st
  | CallDeserializeUser oid done =>
      deserializeUser (loggedInUsers st) oid (call done) st
  end.

Definition run (ops : list Op) (st : State) : State :=
  fold_left (λ s op, exec op s) ops st.

Definition reachable (st : State) : Prop :=
  ∃ ops, run ops init = st.

(** Let the event loop run until nothing is waiting.  A deferred
    callback schedules nothing, so one turn per waiting callback does. *)
Definition drain (st : State) : State :=
  run (replicate (length (nextTickQueue st)) RunTick) st.

(** app.js:139-145 *)
Definition ensureAuthenticated (req : Request) (next : list Action)
    : list Action :=
  if isAuthenticated req then next else [Redirect "/login"].

Definition api_payload : gmap string JsValue :=
  {[ "message" := JString "Respone from API endpoint" ]}.

(** app.js:152-154 *)
Definition get_api (req : Request) : list Action :=
  ensureAuthenticated req [Send api_payload].

(** [req.session.destroy(callback)]: the session is destroyed and the
    callback receives the error, if there was one. *)
Definition session_destroy (req : Request)
    (callback : option Error → list Action) : list Action :=
  SessionDestroy :: callback (destroy_error req).

(** app.js:208-213 *)
Definition get_logout (req : Request) : list Action :=
  session_destroy req (λ err, [LogOut; Redirect config.destroySessionUrl]).

(** ** Properties of the directory *)

(** The number of entries whose [oid] is [v]. *)
Definition count_oid (v : JsValue) (users : list loc) : nat :=
  length (List.filter (λ user, strict_equals (get user "oid") v) users).

(** [!profile.oid] holds: the claim is absent, empty, or another falsy
    value. *)
Definition lacks_oid (profile : loc) : Prop :=
  truthy (get profile "oid") = false.


(** The directory as the code keeps it: every entry has a truthy [oid],
    and no two entries have the same. *)
Definition dir_ok (users : list loc) : Prop :=
  Forall (λ user, truthy (get user "oid") = true) users ∧
  ∀ v, count_oid v users ≤ 1.

(** The directory is as above and every waiting callback holds a profile
    that passed the check of [verify]. *)
Definition state_ok (st : State) : Prop :=
  dir_ok (loggedInUsers st) ∧
  Forall (λ t, truthy (get (tick_profile t) "oid") = true) (nextTickQueue st).

(** *** What passport makes of the answers of the session callbacks

    The definitions below follow passport (lib/authenticator.js,
    lib/strategies/session.js and lib/http/request.js), a dependency and
    not a file of this repository.  They are used to say what an answer of
    [serializeUser] and [deserializeUser] means to their caller, and in
    nothing else. *)

(** The number [0], which passport accepts as a serialized user. *)
Definition js_zero : JsValue := JNumber (S754_zero false).

(** [Authenticator.prototype.deserializeUser], the walk over the
    registered deserializers: an error or a truthy user ends it; [null] or
    [false] ends it with [false], the user is gone; any other falsy
    answer, [undefined] among them, goes on to the next deserializer, and
    when none is left the walk ends with an error.  The error value
    ['pass'], which no callback of the application gives, is left out. *)
Fixpoint passport_deserialize_pass {R : Type}
    (stack : list (JsValue → (option Error → JsValue → R) → R))
    (obj : JsValue) (err : option Error) (user : JsValue)
    (done : option Error → JsValue → R) {struct stack} : R :=
  match err with
  | Some _ => done err user
  | None =>
      if truthy user then done err user
      else if strict_equals user JNull || strict_equals user (JBoolean false)
      then done None (JBoolean false)
      else
        match stack with
        | [] =>
            done (Some (NewError "Failed to deserialize user out of session"))
              JUndefined
        | layer :: stack' =>
            layer obj (λ e u, passport_deserialize_pass stack' obj e u done)
        end
  end.

Definition passport_deserializeUser {R : Type}
    (stack : list (JsValue → (option Error → JsValue → R) → R))
    (obj : JsValue) (done : option Error → JsValue → R) : R :=
  passport_deserialize_pass stack obj None JUndefined done.

(** [Authenticator.prototype.serializeUser], the same walk over the
    registered serializers: an error, a truthy value or [0] ends it; any
    other falsy value goes on, and when no serializer is left the walk
    ends with an error. *)
Fixpoint passport_serialize_pass {R : Type}
    (stack : list (loc → (option Error → JsValue → R) → R))
    (user : loc) (err : option Error) (obj : JsValue)
    (done : option Error → JsValue → R) {struct stack} : R :=
  match err with
  | Some _ => done err obj
  | None =>
      if truthy obj || strict_equals obj js_zero then done err obj
      else
        match stack with
        | [] =>
            done (Some (NewError "Failed to serialize user into session"))
              JUndefined
        | layer :: stack' =>
            layer user (λ e o, passport_serialize_pass stack' user e o done)
        end
  end.

Definition passport_serializeUser {R : Type}
    (stack : list (loc → (option Error → JsValue → R) → R))
    (user : loc) (done : option Error → JsValue → R) : R :=
  passport_serialize_pass stack user None JUndefined done.

(** What the session strategy makes of a request: it fails with an error,
    goes on with no user, or goes on with [req.user] set. *)
Inductive SessionOutcome : Type :=
  | SessionError (e : Error)
  | SessionAnonymous
  | SessionAuthenticated (user : JsValue).

(** [SessionStrategy.prototype.authenticate] with the one deserializer of
    app.js:60-62 registered; [su] is the identifier kept in the session. *)
Definition passport_session (users : list loc) (su : JsValue)
    : SessionOutcome :=
  if truthy su || strict_equals su js_zero then
    passport_deserializeUser [deserializeUser users] su (λ err user,
      match err with
      | Some e => SessionError e
      | None =>
          if negb (truthy user) then SessionAnonymous
          else SessionAuthenticated user
      end)
  else SessionAnonymous.

(** What [req.logIn] makes of a user: an error, or the identifier that it
    puts in the session. *)
Inductive LoginOutcome : Type :=
  | LoginError (e : Error)
  | SessionUserSet (obj : JsValue).

(** [req.logIn] with the one serializer of app.js:56-58 registered. *)
Definition passport_logIn (user : loc) : LoginOutcome :=
  passport_serializeUser [serializeUser] user (λ err obj,
    match err with
    | Some e => LoginError e
    | None => SessionUserSet obj
    end).

(** What one deferred callback does to the directory: nothing when the
    lookup finds an entry, else the profile is appended. *)
Definition register (users : list loc) (profile : loc) : list loc :=
  if truthy
       (array_find
          (λ user, strict_equals (get user "oid") (get profile "oid")) users)
  then users
  else users ++ [profile].

(** The profiles that passed the check of [verify], in the order of the
    calls. *)
Definition verified (ops : list Op) : list loc :=
  flat_map
    (λ op, match op with
           | CallVerify profile _ =>
               if truthy (get profile "oid") then [profile] else []
           | _ => []
           end) ops.

(** Whether an operation is a call made with the callback [d]. *)
Definition uses_done (d : Callback) (op : Op) : bool :=
  match op with
  | CallVerify _ d' | CallSerializeUser _ d' | CallDeserializeUser _ d' =>
      Nat.eqb d' d
  | RunTick => false
  end.

(** How often [d] was called, how often it waits in the queue, and how
    many operations were made with it. *)
Definition count_called (d : Callback) (l : list Call) : nat :=
  length (List.filter (λ c, match c with Called d' _ _ => Nat.eqb d' d end) l).

Definition count_waiting (d : Callback) (q : list Tick) : nat :=
  length (List.filter (λ t, Nat.eqb (tick_done t) d) q).

Definition count_ops (d : Callback) (ops : list Op) : nat :=
  length (List.filter (uses_done d) ops).

(** ** Strict equality and truthiness *)

Lemma SFeqb_true_inv (x y : spec_float) :
  SFeqb x y = true →
  x = y ∨ ∃ s s', x = S754_zero s ∧ y = S754_zero s'.
Proof.
  unfold SFeqb, SFcompare.
  destruct x as [s|s| |s m e], y as [s'|s'| |s' m' e']; try discriminate;
    try (intros _; right; eauto; fail);
    try (destruct s; discriminate); try (destruct s'; discriminate).
  - destruct s, s'; try discriminate; auto.
  - destruct s, s'; try discriminate;
      destruct (e ?= e')%Z eqn:He; try discriminate;
      apply Z.compare_eq in He; subst e';
      change (PosDef.Pos.compare_cont Eq m m') with (m ?= m')%positive;
      destruct (m ?= m')%positive eqn:Hm; try discriminate;
      apply Pos.compare_eq in Hm; subst m'; auto.
Qed.

Lemma SFeqb_refl (x : spec_float) : x ≠ S754_nan → SFeqb x x = true.
Proof.
  unfold SFeqb, SFcompare.
  destruct x as [s|s| |s m e]; try done.
  - by destruct s.
  - intros _. rewrite Z.compare_refl.
    change (PosDef.Pos.compare_cont Eq m m) with (m ?= m)%positive.
    rewrite Pos.compare_refl. by destruct s.
Qed.

(** Two values that are [===] are both truthy or both falsy. *)
Lemma strict_equals_truthy (a b : JsValue) :
  strict_equals a b = true → truthy a = truthy b.
Proof.
  destruct a as [| |x|x|s|l], b as [| |y|y|t|k]; simpl; try done.
  - intros H. by apply Bool.eqb_prop in H.
  - intros H. apply SFeqb_true_inv in H as [->|(s & s' & -> & ->)]; done.
  - intros H. apply String.eqb_eq in H. by subst.
Qed.

(** On a truthy value [===] is equality: no [NaN], no zero. *)
Lemma strict_equals_eq (a b : JsValue) :
  truthy a = true → strict_equals a b = true → a = b.
Proof.
  destruct a as [| |x|x|s|l], b as [| |y|y|t|k]; simpl; try done.
  - intros _ H. apply Bool.eqb_prop in H. by subst.
  - intros Ht H. apply SFeqb_true_inv in H as [->|(s & s' & -> & ->)]; done.
  - intros _ H. apply String.eqb_eq in H. by subst.
  - intros _ H. apply Nat.eqb_eq in H. by subst.
Qed.

Lemma strict_equals_refl (a : JsValue) :
  truthy a = true → strict_equals a a = true.
Proof.
  destruct a as [| |x|x|s|l]; simpl; try done.
  - by destruct x.
  - intros H. apply SFeqb_refl. by intros ->.
  - intros _. apply String.eqb_refl.
  - intros _. apply Nat.eqb_refl.
Qed.


(** ** [Array.prototype.find] *)

Lemma array_find_cases (f : loc → bool) (a : list loc) :
  (∃ u, array_find f a = JObject u ∧ u ∈ a ∧ f u = true) ∨
  (array_find f a = JUndefined ∧ ∀ u, u ∈ a → f u = false).
Proof.
  unfold array_find. destruct (List.find f a) as [u|] eqn:E.
  - left. exists u. apply find_some in E as [Hin Hf].
    split; [done|]. split; [by apply list_elem_of_In|done].
  - right. split; [done|]. intros u Hu.
    apply (find_none f a E). by apply list_elem_of_In.
Qed.

(** The first match stays the first match when the array grows at its
    end. *)
Lemma array_find_app (f : loc → bool) (a b : list loc) (u : loc) :
  array_find f a = JObject u → array_find f (a ++ b) = JObject u.
Proof.
  unfold array_find. induction a as [|x a IH]; simpl; [done|].
  destruct (f x); [done|]. apply IH.
Qed.

Lemma array_find_prefix (f : loc → bool) (a b : list loc) (u : loc) :
  a `prefix_of` b → array_find f a = JObject u → array_find f b = JObject u.
Proof. intros [k ->]. apply array_find_app. Qed.

(** ** Counting the entries of an [oid] *)

Lemma count_oid_app (v : JsValue) (a b : list loc) :
  count_oid v (a ++ b) = count_oid v a + count_oid v b.
Proof. unfold count_oid. by rewrite List.filter_app, length_app. Qed.

Lemma count_oid_none (v : JsValue) (a : list loc) :
  (∀ u, u ∈ a → strict_equals (get u "oid") v = false) → count_oid v a = 0.
Proof.
  unfold count_oid. induction a as [|x a IH]; simpl; [done|].
  intros H. rewrite (H x) by left. apply IH. intros u Hu. apply H. by right.
Qed.

Lemma count_oid_elem (v : JsValue) (a : list loc) (u : loc) :
  u ∈ a → strict_equals (get u "oid") v = true → 1 ≤ count_oid v a.
Proof.
  intros Hu Hv. apply list_elem_of_split in Hu as (a1 & a2 & ->).
  rewrite count_oid_app. unfold count_oid at 2. simpl. rewrite Hv. simpl. lia.
Qed.

(** With at most one entry per [oid], the entry of an [oid] is the one
    that a lookup finds. *)
Lemma count_oid_unique (v : JsValue) (a : list loc) (u w : loc) :
  count_oid v a ≤ 1 → u ∈ a → w ∈ a →
  strict_equals (get u "oid") v = true →
  strict_equals (get w "oid") v = true → u = w.
Proof.
  intros Hc Hu Hw Eu Ew.
  apply list_elem_of_split in Hu as (a1 & a2 & ->).
  rewrite count_oid_app in Hc. unfold count_oid at 2 in Hc.
  simpl in Hc. rewrite Eu in Hc. simpl in Hc.
  fold (count_oid v a2) in Hc.
  apply elem_of_app in Hw as [Hw|Hw].
  - pose proof (count_oid_elem v a1 w Hw Ew). lia.
  - apply elem_of_cons in Hw as [->|Hw]; [done|].
    pose proof (count_oid_elem v a2 w Hw Ew). lia.
Qed.

(** ** The deferred callback *)

Lemma nextTick_callback_found (t : Tick) (st : State) (u : loc) :
  array_find (λ user, strict_equals (get user "oid") (get (tick_profile t) "oid"))
    (loggedInUsers st) = JObject u →
  nextTick_callback t st = call (tick_done t) None (JObject u) st.
Proof. intros H. unfold nextTick_callback, findUser. by rewrite H. Qed.

Lemma nextTick_callback_new (t : Tick) (st : State) :
  array_find (λ user, strict_equals (get user "oid") (get (tick_profile t) "oid"))
    (loggedInUsers st) = JUndefined →
  nextTick_callback t st =
    call (tick_done t) None (JObject (tick_profile t)) (push (tick_profile t) st).
Proof. intros H. unfold nextTick_callback, findUser. by rewrite H. Qed.

(** The callback leaves the queue alone, and does not look at it. *)
Lemma nextTick_callback_queue (t : Tick) (st : State) :
  nextTickQueue (nextTick_callback t st) = nextTickQueue st.
Proof.
  unfold nextTick_callback, findUser.
  by destruct (truthy (array_find _ _)).
Qed.

Lemma nextTick_callback_set_queue (t : Tick) (q : list Tick) (st : State) :
  nextTick_callback t (set_nextTickQueue q st) =
  set_nextTickQueue q (nextTick_callback t st).
Proof.
  unfold nextTick_callback, findUser. simpl.
  by destruct (truthy (array_find _ _)).
Qed.

Lemma set_nextTickQueue_twice (q q' : list Tick) (st : State) :
  set_nextTickQueue q (set_nextTickQueue q' st) = set_nextTickQueue q st.
Proof. done. Qed.

Lemma set_nextTickQueue_id (st : State) :
  set_nextTickQueue (nextTickQueue st) st = st.
Proof. by destruct st. Qed.

(** ** Draining the queue *)

(** Draining runs the waiting callbacks in the order they were scheduled. *)
Lemma drain_fold (st : State) :
  drain st =
  fold_left (λ s t, nextTick_callback t s) (nextTickQueue st)
    (set_nextTickQueue [] st).
Proof.
  unfold drain. remember (nextTickQueue st) as q eqn:Hq.
  revert st Hq. induction q as [|t q IH]; intros st Hq; simpl.
  - rewrite Hq. by rewrite set_nextTickQueue_id.
  - unfold runTick. rewrite <- Hq.
    rewrite IH by (by rewrite nextTick_callback_queue).
    change (MkState (loggedInUsers st) q (calls st))
      with (set_nextTickQueue q st).
    by rewrite !nextTick_callback_set_queue, set_nextTickQueue_twice.
Qed.

Lemma drain_quiet (st : State) : nextTickQueue st = [] → drain st = st.
Proof. intros H. unfold drain. by rewrite H. Qed.

Lemma drain_queue (st : State) : nextTickQueue (drain st) = [].
Proof.
  rewrite drain_fold.
  assert (∀ q s, nextTickQueue s = [] →
    nextTickQueue (fold_left (λ s t, nextTick_callback t s) q s) = []) as H.
  { induction q as [|t q IH]; intros s Hs; simpl; [done|].
    apply IH. by rewrite nextTick_callback_queue. }
  by apply H.
Qed.

(** A callback scheduled last runs last, after all that waited before. *)
Lemma drain_process_nextTick (t : Tick) (st : State) :
  drain (process_nextTick t st) = nextTick_callback t (drain st).
Proof.
  rewrite !drain_fold. simpl. by rewrite fold_left_app.
Qed.

(** ** The invariant of the directory *)

Lemma dir_ok_nil : dir_ok [].
Proof. split; [constructor|]. intros v. unfold count_oid. simpl. lia. Qed.

(** Auto-registration keeps the directory in order: the new profile has a
    truthy [oid] that the lookup did not find. *)
Lemma dir_ok_push (users : list loc) (profile : loc) :
  dir_ok users →
  truthy (get profile "oid") = true →
  array_find (λ user, strict_equals (get user "oid") (get profile "oid")) users
    = JUndefined →
  dir_ok (users ++ [profile]).
Proof.
  intros [Ht Hc] Hp Hf. split.
  - apply Forall_app. split; [done|]. by constructor.
  - intros v. rewrite count_oid_app. unfold count_oid at 2. simpl.
    destruct (strict_equals (get profile "oid") v) eqn:E; simpl.
    + apply strict_equals_eq in E; [|done]. subst v.
      destruct (array_find_cases
        (λ user, strict_equals (get user "oid") (get profile "oid")) users)
        as [(u & Hu & _)|[_ Hnone]]; [congruence|].
      rewrite (count_oid_none _ _ Hnone). lia.
    + specialize (Hc v). lia.
Qed.

Lemma nextTick_callback_dir_ok (t : Tick) (st : State) :
  dir_ok (loggedInUsers st) →
  truthy (get (tick_profile t) "oid") = true →
  dir_ok (loggedInUsers (nextTick_callback t st)).
Proof.
  intros Hd Ht.
  destruct (array_find_cases
    (λ user, strict_equals (get user "oid") (get (tick_profile t) "oid"))
    (loggedInUsers st)) as [(u & Hu & _)|[Hu _]].
  - by rewrite (nextTick_callback_found _ _ _ Hu).
  - rewrite (nextTick_callback_new _ _ Hu). simpl. by apply dir_ok_push.
Qed.

Lemma state_ok_init : state_ok init.
Proof. split; [apply dir_ok_nil|constructor]. Qed.

Lemma state_ok_exec (op : Op) (st : State) :
  state_ok st → state_ok (exec op st).
Proof.
  intros [Hd Hq]. destruct op as [profile done| |user done|oid done]; simpl.
  - unfold verify. destruct (truthy (get profile "oid")) eqn:E; simpl.
    + split; [done|]. simpl. apply Forall_app. split; [done|]. by constructor.
    + by split.
  - unfold runTick. destruct (nextTickQueue st) as [|t q] eqn:E.
    { split; [done|]. by rewrite E. }
    apply Forall_cons in Hq as [Ht Hq]. split.
    + by apply nextTick_callback_dir_ok.
    + by rewrite nextTick_callback_queue.
  - by split.
  - by split.
Qed.

Lemma state_ok_run (ops : list Op) (st : State) :
  state_ok st → state_ok (run ops st).
Proof.
  revert st. induction ops as [|op ops IH]; intros st H; simpl; [done|].
  apply IH. by apply state_ok_exec.
Qed.

Lemma reachable_ok (st : State) : reachable st → state_ok st.
Proof. intros [ops <-]. apply state_ok_run, state_ok_init. Qed.

Lemma reachable_exec (op : Op) (st : State) :
  reachable st → reachable (exec op st).
Proof.
  intros [ops <-]. exists (ops ++ [op]). unfold run. by rewrite fold_left_app.
Qed.

Lemma reachable_run (ops : list Op) (st : State) :
  reachable st → reachable (run ops st).
Proof.
  intros [ops0 <-]. exists (ops0 ++ ops). unfold run. by rewrite fold_left_app.
Qed.

Lemma reachable_drain (st : State) : reachable st → reachable (drain st).
Proof. apply reachable_run. Qed.

(** ** The directory and the log only grow *)

Lemma nextTick_callback_users (t : Tick) (st : State) :
  loggedInUsers st `prefix_of` loggedInUsers (nextTick_callback t st).
Proof.
  unfold nextTick_callback, findUser.
  destruct (truthy (array_find _ _)); simpl; [done|]. by apply prefix_app_r.
Qed.

Lemma exec_users (op : Op) (st : State) :
  loggedInUsers st `prefix_of` loggedInUsers (exec op st).
Proof.
  destruct op as [profile done| |user done|oid done]; simpl.
  - unfold verify. by destruct (truthy (get profile "oid")).
  - unfold runTick. destruct (nextTickQueue st) as [|t q]; [done|].
    apply (nextTick_callback_users t (set_nextTickQueue q st)).
  - reflexivity.
  - reflexivity.
Qed.

Lemma run_users (ops : list Op) (st : State) :
  loggedInUsers st `prefix_of` loggedInUsers (run ops st).
Proof.
  revert st. induction ops as [|op ops IH]; intros st; simpl; [done|].
  etrans; [apply (exec_users op)|apply IH].
Qed.

(** ** One invocation of the adapter *)

(** An entry found under a truthy [oid] carries that very [oid]. *)
Lemma array_find_oid (v : JsValue) (users : list loc) (u : loc) :
  truthy v = true →
  array_find (λ user, strict_equals (get user "oid") v) users = JObject u →
  u ∈ users ∧ get u "oid" = v.
Proof.
  intros Hv Hf.
  destruct (array_find_cases (λ user, strict_equals (get user "oid") v) users)
    as [(w & Hw & Hin & E)|[Hw _]]; [|congruence].
  assert (w = u) as -> by congruence. split; [done|].
  apply strict_equals_eq; [|done].
  by rewrite (strict_equals_truthy _ _ E).
Qed.

Lemma array_find_snoc (f : loc → bool) (a : list loc) (p : loc) :
  array_find f a = JUndefined → f p = true → array_find f (a ++ [p]) = JObject p.
Proof.
  unfold array_find. induction a as [|x a IH]; simpl.
  - intros _ ->. done.
  - destruct (f x); [done|]. apply IH.
Qed.

(** A profile with a truthy [oid] whose verification is the last one
    waiting: draining runs the others first, then its deferred callback. *)
Lemma verify_drain (profile : loc) (done : Callback) (st : State) :
  truthy (get profile "oid") = true →
  drain (verify profile done st) =
  nextTick_callback (MkTick profile done) (drain st).
Proof.
  intros H. unfold verify. rewrite H. simpl. apply drain_process_nextTick.
Qed.

(** After the deferred callback the directory has an entry for the
    profile's [oid], and that entry is what [done] received, with no
    error. *)
Lemma nextTick_callback_registered (t : Tick) (st : State) :
  truthy (get (tick_profile t) "oid") = true →
  ∃ u,
    array_find
      (λ user, strict_equals (get user "oid") (get (tick_profile t) "oid"))
      (loggedInUsers (nextTick_callback t st)) = JObject u ∧
    calls (nextTick_callback t st) =
      calls st ++ [Called (tick_done t) None (JObject u)].
Proof.
  intros Ht.
  destruct (array_find_cases
    (λ user, strict_equals (get user "oid") (get (tick_profile t) "oid"))
    (loggedInUsers st)) as [(u & Hu & _)|[Hu _]].
  - exists u. by rewrite (nextTick_callback_found _ _ _ Hu).
  - exists (tick_profile t). rewrite (nextTick_callback_new _ _ Hu). simpl.
    split; [|done]. apply array_find_snoc; [done|].
    by apply strict_equals_refl.
Qed.

(** ** The claims *)

(** C1.  Two invocations of the verify callback with profiles of the same
    non-empty (truthy) [oid], from any state the process can be in, whether
    the second is made after the first has completed or while it still
    waits: the directory ends with exactly one entry of that [oid], and
    each [done] is called once, with no error and that entry.  The calls
    are the only ones added to those of the callbacks that waited before. *)
Theorem C1_idempotent_registration
    (st : State) (p1 p2 : loc) (d1 d2 : Callback) :
  reachable st →
  truthy (get p1 "oid") = true →
  get p2 "oid" = get p1 "oid" →
  let one_by_one := drain (verify p2 d2 (drain (verify p1 d1 st))) in
  let back_to_back := drain (verify p2 d2 (verify p1 d1 st)) in
  back_to_back = one_by_one ∧
  count_oid (get p1 "oid") (loggedInUsers one_by_one) = 1 ∧
  ∃ u,
    u ∈ loggedInUsers one_by_one ∧
    get u "oid" = get p1 "oid" ∧
    calls one_by_one =
      calls (drain st) ++
        [Called d1 None (JObject u); Called d2 None (JObject u)].
Proof.
  intros Hr H1 H12 one_by_one back_to_back.
  assert (truthy (get p2 "oid") = true) as H2 by (by rewrite H12).
  set (t1 := MkTick p1 d1). set (t2 := MkTick p2 d2).
  set (s0 := drain st). set (s1 := nextTick_callback t1 s0).
  assert (one_by_one = nextTick_callback t2 s1) as E1.
  { unfold one_by_one. rewrite (verify_drain p2 d2) by done.
    rewrite (verify_drain p1 d1) by done.
    rewrite (drain_quiet (nextTick_callback _ _)); [done|].
    rewrite nextTick_callback_queue. apply drain_queue. }
  assert (back_to_back = nextTick_callback t2 s1) as E2.
  { unfold back_to_back. rewrite (verify_drain p2 d2) by done.
    by rewrite (verify_drain p1 d1) by done. }
  split; [congruence|]. rewrite E1. clear E1 E2 one_by_one back_to_back.
  assert (dir_ok (loggedInUsers s1)) as Hd1.
  { apply nextTick_callback_dir_ok; [|done].
    apply (reachable_ok s0). by apply reachable_drain. }
  destruct (nextTick_callback_registered t1 s0 H1) as (u & Hf & Hc).
  fold s1 in Hf, Hc. simpl in Hf, Hc.
  assert (nextTick_callback t2 s1 = call d2 None (JObject u) s1) as ->.
  { apply (nextTick_callback_found t2). simpl. by rewrite H12. }
  simpl. destruct (array_find_oid _ _ _ H1 Hf) as [Hin Ho].
  split; [|exists u; split; [done|]; split; [done|]].
  - destruct Hd1 as [_ Hle]. specialize (Hle (get p1 "oid")).
    assert (1 ≤ count_oid (get p1 "oid") (loggedInUsers s1)); [|lia].
    apply (count_oid_elem _ _ u Hin). rewrite Ho. by apply strict_equals_refl.
  - rewrite Hc. by rewrite <- app_assoc.
Qed.

(** C2.  A profile whose [oid] is absent or empty (or falsy in another
    way): the verify callback calls [done] at once with the error
    "No oid found" and [null] for the user, and does nothing else: the
    directory is the same and nothing is deferred.  With no user handed
    over, the framework has nothing to put in a session. *)
Theorem C2_missing_oid (st : State) (profile : loc) (done : Callback) :
  heap profile !! "oid" = None ∨
  heap profile !! "oid" = Some (JString "") ∨
  lacks_oid profile →
  verify profile done st =
    call done (Some (NewError "No oid found")) JNull st ∧
  loggedInUsers (verify profile done st) = loggedInUsers st ∧
  nextTickQueue (verify profile done st) = nextTickQueue st ∧
  calls (verify profile done st) =
    calls st ++ [Called done (Some (NewError "No oid found")) JNull].
Proof.
  intros H.
  assert (truthy (get profile "oid") = false) as E.
  { unfold lacks_oid, get in *. by destruct H as [->|[->|H]]. }
  unfold verify. by rewrite E.
Qed.

(** In a directory that is in order, looking up the [oid] of an entry
    finds that entry. *)
Lemma array_find_entry (users : list loc) (u : loc) :
  dir_ok users → u ∈ users →
  array_find (λ user, strict_equals (get user "oid") (get u "oid")) users
    = JObject u.
Proof.
  intros [Ht Hc] Hu.
  assert (truthy (get u "oid") = true) as Htu.
  { rewrite Forall_forall in Ht. by apply Ht. }
  destruct (array_find_cases
    (λ user, strict_equals (get user "oid") (get u "oid")) users)
    as [(w & Hw & Hin & E)|[_ Hnone]].
  - rewrite Hw. f_equal.
    apply (count_oid_unique (get u "oid") users w u); auto.
    by apply strict_equals_refl.
  - specialize (Hnone u Hu). rewrite strict_equals_refl in Hnone; done.
Qed.


Lemma dir_ok_NoDup (users : list loc) :
  dir_ok users → NoDup ((λ user, get user "oid") <$> users).
Proof.
  induction users as [|x a IH]; intros [Ht Hc]; simpl; [constructor|].
  apply Forall_cons in Ht as [Hx Ha]. constructor.
  - intros Hin. apply list_elem_of_fmap in Hin as (y & Hy & Hin).
    specialize (Hc (get x "oid")). unfold count_oid in Hc. simpl in Hc.
    rewrite strict_equals_refl in Hc by done. simpl in Hc.
    fold (count_oid (get x "oid") a) in Hc.
    pose proof (count_oid_elem (get x "oid") a y Hin) as Hge.
    rewrite <- Hy in Hge. rewrite strict_equals_refl in Hge by done.
    specialize (Hge eq_refl). lia.
  - apply IH. split; [done|]. intros v. specialize (Hc v).
    change (x :: a) with ([x] ++ a) in Hc. rewrite count_oid_app in Hc. lia.
Qed.


(** C4.  The directory is empty at process start; in every state the
    process can be in it has at most one entry per [oid]; and every
    operation (a call of the verify callback, a deferred callback run, a
    call of either session callback) leaves the entries there are in place
    and at most appends to them. *)
Theorem C4_directory_invariant (st : State) (op : Op) :
  reachable st →
  loggedInUsers init = [] ∧
  (∀ v, count_oid v (loggedInUsers st) ≤ 1) ∧
  NoDup ((λ user, get user "oid") <$> loggedInUsers st) ∧
  loggedInUsers st `prefix_of` loggedInUsers (exec op st) ∧
  (∀ v, count_oid v (loggedInUsers (exec op st)) ≤ 1).
Proof.
  intros Hr. destruct (reachable_ok st Hr) as [Hd _].
  destruct (reachable_ok _ (reachable_exec op st Hr)) as [[_ Hc'] _].
  split; [done|]. split; [apply Hd|]. split; [by apply dir_ok_NoDup|].
  split; [apply exec_users|done].
Qed.

(** C5.  [GET /api]: when [req.isAuthenticated()] holds the response is
    the protected payload; when it does not, the guard redirects to
    [/login] and the response sends nothing. *)
Theorem C5_api_guard (req : Request) :
  (isAuthenticated req = true → get_api req = [Send api_payload]) ∧
  (isAuthenticated req = false →
     get_api req = [Redirect "/login"] ∧ ∀ body, Send body ∉ get_api req).
Proof.
  unfold get_api, ensureAuthenticated. split; intros ->; [done|].
  split; [done|]. intros body Hin.
  apply list_elem_of_singleton in Hin. discriminate.
Qed.

(** C6.  [GET /logout]: whatever [req.session.destroy] reports, the
    handler destroys the session, calls [req.logOut()] and redirects to
    the provider's logout URL of the configuration, which carries
    [post_logout_redirect_uri]; the response is the same with and without
    an error, and is only this redirect. *)
Theorem C6_logout (req : Request) :
  get_logout req =
    [SessionDestroy; LogOut; Redirect config.destroySessionUrl] ∧
  config.destroySessionUrl =
    "https://login.microsoftonline.com/common/oauth2/logout"
      +:+ "?post_logout_redirect_uri=" +:+ "http://localhost:3000" ∧
  ∀ err, get_logout (MkRequest (isAuthenticated req) err) = get_logout req.
Proof. done. Qed.

(** C7.  A profile whose [oid] is that of an entry [u] of the directory,
    in any state the process can be in: the verify callback itself leaves
    the directory as it is, and when its deferred callback has run, the
    directory is what it would be without the invocation, and the one call
    added is [done(null, u)], with the stored object and not the profile
    given. *)
Theorem C7_returning_user
    (st : State) (profile : loc) (done : Callback) (u : loc) :
  reachable st →
  u ∈ loggedInUsers st →
  get u "oid" = get profile "oid" →
  loggedInUsers (verify profile done st) = loggedInUsers st ∧
  loggedInUsers (drain (verify profile done st)) = loggedInUsers (drain st) ∧
  calls (drain (verify profile done st)) =
    calls (drain st) ++ [Called done None (JObject u)].
Proof.
  intros Hr Hu Ho. destruct (reachable_ok st Hr) as [Hd _].
  assert (truthy (get profile "oid") = true) as Hp.
  { rewrite <- Ho. destruct Hd as [Ht _].
    rewrite Forall_forall in Ht. by apply Ht. }
  split. { unfold verify. by rewrite Hp. }
  rewrite verify_drain by done.
  rewrite (nextTick_callback_found _ _ u); [done|]. simpl. rewrite <- Ho.
  apply (array_find_prefix _ (loggedInUsers st)); [apply run_users|].
  by apply array_find_entry.
Qed.

(** C8.  [findUser], for every array and every [oid]: the callback gets
    a null error and either an entry of the array whose [oid] is [===] to
    the argument (the first such), or [undefined] when the array has no
    such entry. *)
Theorem C8_findUser (users : list loc) (oid : JsValue) :
  ∃ user,
    (∀ (R : Type) (callback : option Error → JsValue → R),
       findUser users oid callback = callback None user) ∧
    ((∃ u before after,
        user = JObject u ∧
        users = before ++ u :: after ∧
        strict_equals (get u "oid") oid = true ∧
        ∀ w, w ∈ before → strict_equals (get w "oid") oid = false) ∨
     (user = JUndefined ∧
      ∀ w, w ∈ users → strict_equals (get w "oid") oid = false)).
Proof.
  exists (array_find (λ user, strict_equals (get user "oid") oid) users).
  split; [done|]. unfold array_find.
  induction users as [|x a IH]; simpl.
  - right. split; [done|]. intros w Hw. by apply elem_of_nil in Hw.
  - destruct (strict_equals (get x "oid") oid) eqn:E.
    + left. exists x, [], a. repeat split; [done|].
      intros w Hw. by apply elem_of_nil in Hw.
    + destruct IH as [(u & before & after & Hf & -> & Eu & Hb)|[Hf Hnone]].
      * left. exists u, (x :: before), after. repeat split; [done..|].
        intros w Hw. apply elem_of_cons in Hw as [->|Hw]; auto.
      * right. split; [done|].
        intros w Hw. apply elem_of_cons in Hw as [->|Hw]; auto.
Qed.

(** C9.  [findUser] gives its callback a null error, whatever the array
    and the [oid]; so the deferred callback never takes the branch that
    passes an error on, and ends in [done(null, u)] for an object [u]; so
    the verify callback, for a profile with a truthy [oid], ends in that
    call once the queue has run. *)
Theorem C9_no_lookup_error :
  (∀ (R : Type) users oid (callback : option Error → JsValue → R),
     ∃ user, findUser users oid callback = callback None user) ∧
  (∀ t st, ∃ u,
     calls (nextTick_callback t st) =
       calls st ++ [Called (tick_done t) None (JObject u)]) ∧
  (∀ profile done st,
     truthy (get profile "oid") = true →
     ∃ u, calls (drain (verify profile done st)) =
            calls (drain st) ++ [Called done None (JObject u)]).
Proof.
  assert (∀ t st, ∃ u,
     calls (nextTick_callback t st) =
       calls st ++ [Called (tick_done t) None (JObject u)]) as Htick.
  { intros t st.
    destruct (array_find_cases
      (λ user, strict_equals (get user "oid") (get (tick_profile t) "oid"))
      (loggedInUsers st)) as [(u & Hu & _)|[Hu _]].
    - exists u. by rewrite (nextTick_callback_found _ _ _ Hu).
    - exists (tick_profile t). by rewrite (nextTick_callback_new _ _ Hu). }
  split; [|split; [done|]].
  - intros R users oid callback. by eexists.
  - intros profile done st Hp. rewrite verify_drain by done.
    apply (Htick (MkTick profile done)).
Qed.


(** ** The answers of the session callbacks, as passport reads them *)

(** An identifier that is kept in the session and has an entry: the
    request goes on with that entry as its user. *)
Lemma passport_session_known (st : State) (u : loc) :
  reachable st → u ∈ loggedInUsers st →
  passport_session (loggedInUsers st) (get u "oid")
  = SessionAuthenticated (JObject u).
Proof.
  intros Hr Hu. destruct (reachable_ok st Hr) as [Hd _].
  assert (truthy (get u "oid") = true) as Ht.
  { destruct Hd as [Ht _]. rewrite Forall_forall in Ht. by apply Ht. }
  unfold passport_session, passport_deserializeUser. rewrite Ht. simpl.
  unfold deserializeUser, findUser. by rewrite array_find_entry.
Qed.

(** A truthy identifier that no entry carries: the answer [undefined] of
    [deserializeUser] is none that ends the walk, no deserializer is
    left, and the request fails with an error. *)
Lemma passport_session_unknown (users : list loc) (su : JsValue) :
  truthy su = true →
  (∀ u, u ∈ users → strict_equals (get u "oid") su = false) →
  passport_session users su
  = SessionError (NewError "Failed to deserialize user out of session").
Proof.
  intros Ht Hno. unfold passport_session, passport_deserializeUser.
  rewrite Ht. simpl. unfold deserializeUser, findUser.
  destruct (array_find_cases
    (λ user, strict_equals (get user "oid") su) users)
    as [(w & _ & Hin & E)|[-> _]]; [|done].
  rewrite (Hno w Hin) in E. discriminate.
Qed.

(** A user object with a falsy [oid]: the answer of [serializeUser] is
    none that ends the walk, and logging in fails with an error. *)
Lemma passport_logIn_falsy (user : loc) :
  lacks_oid user →
  strict_equals (get user "oid") js_zero = false →
  passport_logIn user
  = LoginError (NewError "Failed to serialize user into session").
Proof.
  intros E Hz. unfold passport_logIn, passport_serializeUser. simpl.
  unfold serializeUser. unfold lacks_oid in E. by rewrite E, Hz.
Qed.

(** ** The directory as a fold over the verified profiles *)

Lemma nextTick_callback_register (t : Tick) (st : State) :
  loggedInUsers (nextTick_callback t st) =
  register (loggedInUsers st) (tick_profile t).
Proof.
  unfold nextTick_callback, findUser, register.
  by destruct (truthy (array_find _ _)).
Qed.

Lemma nextTick_callback_calls (t : Tick) (st : State) :
  ∃ u, calls (nextTick_callback t st) =
         calls st ++ [Called (tick_done t) None (JObject u)].
Proof.
  destruct (array_find_cases
    (λ user, strict_equals (get user "oid") (get (tick_profile t) "oid"))
    (loggedInUsers st)) as [(u & Hu & _)|[Hu _]].
  - exists u. by rewrite (nextTick_callback_found _ _ _ Hu).
  - exists (tick_profile t). by rewrite (nextTick_callback_new _ _ Hu).
Qed.

Lemma drain_users (st : State) :
  loggedInUsers (drain st) =
  fold_left register (tick_profile <$> nextTickQueue st) (loggedInUsers st).
Proof.
  rewrite drain_fold.
  assert (∀ q s,
    loggedInUsers (fold_left (λ s t, nextTick_callback t s) q s) =
    fold_left register (tick_profile <$> q) (loggedInUsers s)) as H.
  { induction q as [|t q IH]; intros s; simpl; [done|].
    by rewrite IH, nextTick_callback_register. }
  by rewrite H.
Qed.

(** Whatever the operations and their order, what the waiting callbacks
    will make of the directory is fixed by the profiles verified. *)
Lemma run_users_fold (ops : list Op) (st : State) :
  fold_left register (tick_profile <$> nextTickQueue (run ops st))
    (loggedInUsers (run ops st)) =
  fold_left register ((tick_profile <$> nextTickQueue st) ++ verified ops)
    (loggedInUsers st).
Proof.
  revert st. induction ops as [|op ops IH]; intros st.
  - simpl. by rewrite app_nil_r.
  - change (run (op :: ops) st) with (run ops (exec op st)). rewrite IH.
    destruct op as [profile done| |user done|oid done]; simpl.
    + unfold verify. destruct (truthy (get profile "oid")); simpl.
      * by rewrite fmap_app, <- app_assoc.
      * done.
    + unfold runTick. destruct (nextTickQueue st) as [|t q] eqn:E.
      * by rewrite E.
      * rewrite nextTick_callback_queue, nextTick_callback_register. done.
    + done.
    + done.
Qed.

Lemma drain_run_users (ops : list Op) :
  loggedInUsers (drain (run ops init)) = fold_left register (verified ops) [].
Proof. rewrite drain_users. by rewrite run_users_fold. Qed.

Lemma fold_register_prefix (l a : list loc) :
  a `prefix_of` fold_left register l a.
Proof.
  revert a. induction l as [|p l IH]; intros a; simpl; [done|].
  etrans; [|apply IH]. unfold register.
  destruct (truthy _); [done|]. by apply prefix_app_r.
Qed.

Lemma fold_register_incl (l a : list loc) (u : loc) :
  u ∈ fold_left register l a → u ∈ a ∨ u ∈ l.
Proof.
  revert a. induction l as [|p l IH]; intros a; simpl; [auto|].
  intros H. apply IH in H as [H|H]; [|right; by right].
  unfold register in H. destruct (truthy _); [by left|].
  apply elem_of_app in H as [H|H]; [by left|].
  apply list_elem_of_singleton in H as ->. right. by left.
Qed.

Lemma register_covers (a : list loc) (p : loc) :
  truthy (get p "oid") = true →
  ∃ u, u ∈ register a p ∧ get u "oid" = get p "oid".
Proof.
  intros Hp. unfold register.
  destruct (array_find_cases
    (λ user, strict_equals (get user "oid") (get p "oid")) a)
    as [(u & Hu & Hin & E)|[Hu _]]; rewrite Hu; simpl.
  - exists u. split; [done|]. apply strict_equals_eq; [|done].
    by rewrite (strict_equals_truthy _ _ E).
  - exists p. split; [|done]. apply elem_of_app. right. by left.
Qed.

Lemma fold_register_covers (l a : list loc) (p : loc) :
  p ∈ l → truthy (get p "oid") = true →
  ∃ u, u ∈ fold_left register l a ∧ get u "oid" = get p "oid".
Proof.
  revert a. induction l as [|x l IH]; intros a Hin Hp.
  - by apply elem_of_nil in Hin.
  - simpl. apply elem_of_cons in Hin as [->|Hin]; [|by apply IH].
    destruct (register_covers a x Hp) as (u & Hu & Ho).
    exists u. split; [|done].
    by apply (elem_of_prefix _ _ _ Hu), fold_register_prefix.
Qed.

Lemma elem_of_verified (ops : list Op) (p : loc) :
  p ∈ verified ops ↔
  truthy (get p "oid") = true ∧ ∃ d, CallVerify p d ∈ ops.
Proof.
  unfold verified. rewrite list_elem_of_In, in_flat_map. split.
  - intros (op & Hop & Hin). apply list_elem_of_In in Hop.
    destruct op as [profile done| | |]; try by destruct Hin.
    destruct (truthy (get profile "oid")) eqn:E; [|by destruct Hin].
    destruct Hin as [<-|[]]. split; [done|]. by exists done.
  - intros (Hp & d & Hin). exists (CallVerify p d).
    split; [by apply list_elem_of_In|]. rewrite Hp. by left.
Qed.

(** X2.  Once the queue has run, the directory is the profiles that
    passed the check of [verify], taken in the order of the calls, each
    appended unless an entry of its [oid] was there.  So two histories of
    the process with the same verified profiles in the same order end
    with the same directory, however the runs of deferred callbacks and
    the session callbacks fell between the calls. *)
Theorem directory_is_fold (ops : list Op) :
  loggedInUsers (drain (run ops init)) = fold_left register (verified ops) [] ∧
  ∀ ops', verified ops' = verified ops →
    loggedInUsers (drain (run ops' init)) = loggedInUsers (drain (run ops init)).
Proof.
  split; [apply drain_run_users|].
  intros ops' H. by rewrite !drain_run_users, H.
Qed.

(** X3.  At any time every entry of the directory is a profile that was
    given to the verify callback and has a truthy [oid]; and once the
    queue has run, every profile with a truthy [oid] that was given to the
    verify callback has an entry of its [oid]. *)
Theorem directory_is_what_was_verified (ops : list Op) :
  (∀ u, u ∈ loggedInUsers (run ops init) →
     truthy (get u "oid") = true ∧ ∃ d, CallVerify u d ∈ ops) ∧
  (∀ p d, CallVerify p d ∈ ops → truthy (get p "oid") = true →
     ∃ u, u ∈ loggedInUsers (drain (run ops init)) ∧
          get u "oid" = get p "oid").
Proof.
  split.
  - intros u Hu. apply elem_of_verified.
    assert (u ∈ loggedInUsers (drain (run ops init))) as H
      by (by apply (elem_of_prefix _ _ _ Hu), run_users).
    rewrite drain_run_users in H.
    apply fold_register_incl in H as [H|H]; [|done].
    by apply elem_of_nil in H.
  - intros p d Hin Hp. rewrite drain_run_users.
    apply fold_register_covers; [|done].
    apply elem_of_verified. split; [done|]. by exists d.
Qed.

(** ** Every callback is called once *)

Lemma count_called_snoc (d : Callback) (l : list Call) (c : Call) :
  count_called d (l ++ [c]) =
  count_called d l + (match c with Called d' _ _ => if Nat.eqb d' d then 1 else 0 end).
Proof.
  unfold count_called. rewrite List.filter_app, length_app. simpl.
  destruct c as [d' e v]. by destruct (Nat.eqb d' d).
Qed.

Lemma count_waiting_snoc (d : Callback) (q : list Tick) (t : Tick) :
  count_waiting d (q ++ [t]) =
  count_waiting d q + (if Nat.eqb (tick_done t) d then 1 else 0).
Proof.
  unfold count_waiting. rewrite List.filter_app, length_app. simpl.
  by destruct (Nat.eqb (tick_done t) d).
Qed.

(** One operation: the calls made and the calls waiting grow by one when
    the operation is made with the callback, and stay as they are when it
    is not. *)
Lemma exec_count (d : Callback) (op : Op) (st : State) :
  count_called d (calls (exec op st)) +
    count_waiting d (nextTickQueue (exec op st)) =
  count_called d (calls st) + count_waiting d (nextTickQueue st) +
    (if uses_done d op then 1 else 0).
Proof.
  destruct op as [profile done| |user done|oid done]; cbn [exec uses_done].
  - unfold verify. destruct (truthy (get profile "oid")); simpl.
    + rewrite count_waiting_snoc. simpl. lia.
    + rewrite count_called_snoc. lia.
  - unfold runTick. destruct (nextTickQueue st) as [|t q] eqn:E.
    + rewrite E. lia.
    + change (MkState (loggedInUsers st) q (calls st))
        with (set_nextTickQueue q st).
      rewrite nextTick_callback_queue.
      destruct (nextTick_callback_calls t (set_nextTickQueue q st))
        as (u & ->).
      rewrite count_called_snoc. simpl.
      unfold count_waiting. simpl.
      destruct (Nat.eqb (tick_done t) d); simpl; lia.
  - unfold serializeUser. simpl. rewrite count_called_snoc. lia.
  - unfold deserializeUser, findUser. simpl. rewrite count_called_snoc. lia.
Qed.

Lemma run_count (d : Callback) (ops : list Op) (st : State) :
  count_called d (calls (run ops st)) +
    count_waiting d (nextTickQueue (run ops st)) =
  count_called d (calls st) + count_waiting d (nextTickQueue st) +
    count_ops d ops.
Proof.
  revert st. induction ops as [|op ops IH]; intros st.
  - unfold count_ops. simpl. lia.
  - change (run (op :: ops) st) with (run ops (exec op st)).
    rewrite IH, exec_count. unfold count_ops. simpl.
    destruct (uses_done d op); simpl; lia.
Qed.

Lemma count_ops_ticks (d : Callback) (n : nat) :
  count_ops d (replicate n RunTick) = 0.
Proof. unfold count_ops. induction n as [|n IH]; simpl; done. Qed.

(** X1.  Every call that the framework makes with a callback [d] (of the
    verify callback, of [serializeUser], of [deserializeUser]) is answered
    by one call of [d] or still waits in the queue, at any time; once the
    queue has run, [d] has been called as often as it was given, no more
    and no less. *)
Theorem done_called_exactly_once (ops : list Op) (d : Callback) :
  count_called d (calls (run ops init)) +
    count_waiting d (nextTickQueue (run ops init)) = count_ops d ops ∧
  count_called d (calls (drain (run ops init))) = count_ops d ops.
Proof.
  pose proof (run_count d ops init) as H. simpl in H.
  change (count_called d []) with 0 in H.
  change (count_waiting d []) with 0 in H.
  split; [lia|].
  pose proof (run_count d
    (replicate (length (nextTickQueue (run ops init))) RunTick)
    (run ops init)) as H'.
  fold (drain (run ops init)) in H'.
  rewrite drain_queue, count_ops_ticks in H'.
  change (count_waiting d []) with 0 in H'. lia.
Qed.

(** ** Two users who are new *)

Lemma array_find_snoc_none (f : loc → bool) (a : list loc) (p : loc) :
  array_find f a = JUndefined → f p = false →
  array_find f (a ++ [p]) = JUndefined.
Proof.
  unfold array_find. induction a as [|x a IH]; simpl.
  - intros _ ->. done.
  - destruct (f x); [done|]. apply IH.
Qed.

(** X4.  Two verify calls made back to back with profiles of two
    different truthy [oid]s, neither of them in the directory once the
    callbacks waiting before have run: both profiles are appended, in the
    order of the calls, and each [done] gets its own profile. *)
Theorem two_new_users_are_both_registered
    (st : State) (p1 p2 : loc) (d1 d2 : Callback) :
  truthy (get p1 "oid") = true →
  truthy (get p2 "oid") = true →
  get p1 "oid" ≠ get p2 "oid" →
  (∀ u, u ∈ loggedInUsers (drain st) →
     get u "oid" ≠ get p1 "oid" ∧ get u "oid" ≠ get p2 "oid") →
  let st' := drain (verify p2 d2 (verify p1 d1 st)) in
  loggedInUsers st' = loggedInUsers (drain st) ++ [p1; p2] ∧
  calls st' =
    calls (drain st) ++
      [Called d1 None (JObject p1); Called d2 None (JObject p2)].
Proof.
  intros H1 H2 Hne Hnew st'. unfold st'.
  rewrite (verify_drain p2 d2) by done.
  rewrite (verify_drain p1 d1) by done.
  assert (∀ p, truthy (get p "oid") = true →
    (∀ u, u ∈ loggedInUsers (drain st) → get u "oid" ≠ get p "oid") →
    array_find (λ user, strict_equals (get user "oid") (get p "oid"))
      (loggedInUsers (drain st)) = JUndefined) as Hnone.
  { intros p Hp Hno.
    destruct (array_find_cases
      (λ user, strict_equals (get user "oid") (get p "oid"))
      (loggedInUsers (drain st))) as [(u & Hu & _)|[Hu _]]; [|done].
    destruct (array_find_oid _ _ _ Hp Hu) as [Hin Ho].
    by destruct (Hno u Hin). }
  rewrite (nextTick_callback_new (MkTick p1 d1) (drain st)).
  2:{ simpl. apply Hnone; [done|]. intros u Hu. by apply Hnew. }
  rewrite (nextTick_callback_new (MkTick p2 d2)).
  2:{ simpl. apply array_find_snoc_none.
      - apply Hnone; [done|]. intros u Hu. by apply Hnew.
      - destruct (strict_equals (get p1 "oid") (get p2 "oid")) eqn:E; [|done].
        by apply strict_equals_eq in E. }
  simpl. by rewrite <- !app_assoc.
Qed.

(** ** Signing in, then restoring the session *)

(** X5.  A verify call with a truthy [oid], from any state: [done] gets
    an object [u] of that [oid], and from then on, whatever the process
    does, serializing [u] and deserializing the result gives [u] back. *)
Theorem signed_in_user_is_restored
    (st : State) (profile : loc) (done : Callback) :
  truthy (get profile "oid") = true →
  ∃ u,
    calls (drain (verify profile done st)) =
      calls (drain st) ++ [Called done None (JObject u)] ∧
    get u "oid" = get profile "oid" ∧
    ∀ (ops : list Op) (R : Type) (k : option Error → JsValue → R),
      serializeUser u
        (λ err oid,
           deserializeUser
             (loggedInUsers (run ops (drain (verify profile done st)))) oid k)
      = k None (JObject u).
Proof.
  intros Hp. rewrite verify_drain by done.
  destruct (nextTick_callback_registered (MkTick profile done) (drain st) Hp)
    as (u & Hf & Hc). simpl in Hf, Hc.
  destruct (array_find_oid _ _ _ Hp Hf) as [Hin Ho].
  exists u. split; [done|]. split; [done|].
  intros ops R k. unfold serializeUser, deserializeUser, findUser.
  rewrite Ho.
  by rewrite (array_find_prefix _ _ _ u (run_users ops _) Hf).
Qed.

(** ** The replacement of escaped quotes *)

(** Induction that follows the reading of the string, which looks one
    character ahead. *)
Lemma string_ind_ahead (P : string → Prop) :
  P EmptyString →
  (∀ c, P (String c EmptyString)) →
  (∀ c q s, P s → P (String q s) → P (String c (String q s))) →
  ∀ s, P s.
Proof.
  intros H0 H1 H2 s.
  assert (P s ∧ ∀ c, P (String c s)) as [H _]; [|done].
  induction s as [|q s [IH1 IH2]]; [by split|].
  split; [apply IH2|]. intros c. by apply H2.
Qed.

Lemma replace_escaped_quotes_match (s : string) :
  replace_escaped_quotes (String backslash (String double_quote s)) =
  String double_quote (replace_escaped_quotes s).
Proof. done. Qed.

Lemma replace_escaped_quotes_keep (c q : Ascii.ascii) (s : string) :
  Ascii.eqb c backslash && Ascii.eqb q double_quote = false →
  replace_escaped_quotes (String c (String q s)) =
  String c (replace_escaped_quotes (String q s)).
Proof.
  intros H. change (replace_escaped_quotes (String c (String q s)))
    with (if Ascii.eqb c backslash && Ascii.eqb q double_quote
          then String double_quote (replace_escaped_quotes s)
          else String c (replace_escaped_quotes (String q s))).
  by rewrite H.
Qed.

(** X6.  The replacement never makes the string longer, keeps the number
    of occurrences of every character other than the backslash, and the
    characters it drops are backslashes. *)
Theorem replace_escaped_quotes_drops_backslashes (s : string) :
  String.length (replace_escaped_quotes s) ≤ String.length s ∧
  (∀ c, c ≠ backslash →
     occurrences c (replace_escaped_quotes s) = occurrences c s) ∧
  occurrences backslash (replace_escaped_quotes s) + String.length s =
    occurrences backslash s + String.length (replace_escaped_quotes s).
Proof.
  induction s as [| c | c q s IH1 IH2] using string_ind_ahead.
  - simpl. split; [lia|]. split; [done|lia].
  - simpl. split; [lia|]. split; [done|lia].
  - destruct (Ascii.eqb c backslash && Ascii.eqb q double_quote) eqn:E.
    + apply andb_true_iff in E as [Ec Eq].
      apply Ascii.eqb_eq in Ec, Eq. subst c q.
      rewrite replace_escaped_quotes_match.
      destruct IH1 as (Hl & Hc & Hb).
      split; [cbn [String.length]; lia|]. split.
      * intros c Hne. cbn [occurrences]. rewrite (Hc c Hne).
        destruct (Ascii.eqb backslash c) eqn:E; [|lia].
        apply Ascii.eqb_eq in E. congruence.
      * cbn [occurrences String.length] in *.
        rewrite Ascii.eqb_refl.
        assert (Ascii.eqb double_quote backslash = false) as -> by done.
        lia.
    + rewrite (replace_escaped_quotes_keep c q s E).
      destruct IH2 as (Hl & Hc & Hb).
      split; [cbn [String.length] in *; lia|]. split.
      * intros x Hne. specialize (Hc x Hne).
        cbn [occurrences]. cbn [occurrences] in Hc. lia.
      * cbn [occurrences String.length] in *. lia.
Qed.

(** X7.  The replacement leaves a string as it is exactly when no
    backslash in it is followed by a double quote. *)
Theorem replace_escaped_quotes_fixed (s : string) :
  replace_escaped_quotes s = s ↔
  ∀ n, ¬ (String.get n s = Some backslash ∧
          String.get (S n) s = Some double_quote).
Proof.
  induction s as [| c | c q s IH1 IH2] using string_ind_ahead.
  - split; [|done]. intros _ n [H _]. by destruct n.
  - split; [|done]. intros _ n [H1 H2]. destruct n; simpl in H2; done.
  - destruct (Ascii.eqb c backslash && Ascii.eqb q double_quote) eqn:E.
    + apply andb_true_iff in E as [Ec Eq].
      apply Ascii.eqb_eq in Ec, Eq. subst c q.
      rewrite replace_escaped_quotes_match. split.
      * intros H. exfalso. injection H as H _. vm_compute in H. discriminate.
      * intros H. exfalso. by apply (H 0).
    + rewrite (replace_escaped_quotes_keep c q s E). split.
      * intros H0.
        assert (replace_escaped_quotes (String q s) = String q s) as H
          by congruence.
        pose proof (proj1 IH2 H) as Hno. clear H0 H.
        intros [|n] [Hn1 Hn2].
        -- simpl in Hn1, Hn2. injection Hn1 as ->. injection Hn2 as ->.
           by rewrite !Ascii.eqb_refl in E.
        -- by apply (Hno n).
      * intros H. f_equal. apply (proj2 IH2). intros n Hn. by apply (H (S n)).
Qed.

(** ** A session keeps its user *)

(** X8.  An identifier that [deserializeUser] resolves to the object [u]
    in some state resolves to [u] in every later state. *)
Theorem deserializeUser_stable
    (st : State) (oid : JsValue) (u : loc) (ops : list Op) :
  deserializeUser (loggedInUsers st) oid pair = (None, JObject u) →
  ∀ (R : Type) (done : option Error → JsValue → R),
    deserializeUser (loggedInUsers (run ops st)) oid done
    = done None (JObject u).
Proof.
  unfold deserializeUser, findUser. intros Hf R done.
  assert (array_find (λ user, strict_equals (get user "oid") oid)
            (loggedInUsers st) = JObject u) as Hu by congruence.
  by rewrite (array_find_prefix _ _ _ u (run_users ops st) Hu).
Qed.

(** ** The one error *)

(** The call that an operation adds to the log, if it adds one: a call
    with no error, or the error of the check of [verify]. *)
Lemma exec_calls (op : Op) (st : State) :
  calls (exec op st) = calls st ∨
  ∃ c, calls (exec op st) = calls st ++ [c] ∧
    ((∃ d v, c = Called d None v) ∨
     (∃ p d, op = CallVerify p d ∧ truthy (get p "oid") = false ∧
             c = Called d (Some (NewError "No oid found")) JNull)).
Proof.
  destruct op as [profile done| |user done|oid done]; cbn [exec].
  - unfold verify. destruct (truthy (get profile "oid")) eqn:E; simpl.
    + by left.
    + right. eexists. split; [done|]. right. by exists profile, done.
  - unfold runTick. destruct (nextTickQueue st) as [|t q]; [by left|].
    destruct (nextTick_callback_calls t
      (MkState (loggedInUsers st) q (calls st))) as (u & Hu).
    right. eexists. split; [exact Hu|]. left. by eexists _, _.
  - right. eexists. split; [done|]. left. by eexists _, _.
  - right. eexists. split; [done|]. left. by eexists _, _.
Qed.

(** X9.  From process start, a [done] callback is only ever given an
    error by the verify callback for a profile with a falsy [oid]: the
    error is "No oid found" and comes with [null]. *)
Theorem only_error_is_missing_oid
    (ops : list Op) (d : Callback) (e : Error) (v : JsValue) :
  Called d (Some e) v ∈ calls (run ops init) →
  e = NewError "No oid found" ∧ v = JNull ∧
  ∃ p, CallVerify p d ∈ ops ∧ truthy (get p "oid") = false.
Proof.
  induction ops as [|op ops IH] using rev_ind.
  - intros H. by apply elem_of_nil in H.
  - unfold run. rewrite fold_left_app. simpl. fold (run ops init).
    intros H.
    assert (Called d (Some e) v ∈ calls (run ops init) →
            e = NewError "No oid found" ∧ v = JNull ∧
            ∃ p, CallVerify p d ∈ ops ++ [op] ∧ truthy (get p "oid") = false)
      as IH'.
    { intros H'. destruct (IH H') as (He & Hv & p & Hin & Hp).
      split; [done|]. split; [done|]. exists p. split; [|done].
      apply elem_of_app. by left. }
    destruct (exec_calls op (run ops init)) as [E|(c & E & Hc)];
      rewrite E in H; [by apply IH'|].
    apply elem_of_app in H as [H|H]; [by apply IH'|].
    apply list_elem_of_singleton in H. subst c.
    destruct Hc as [(d' & v' & Hc)|(p & d' & -> & Hp & Hc)]; [done|].
    injection Hc as -> <- ->. split; [done|]. split; [done|].
    exists p. split; [|done]. apply elem_of_app. right. by left.
Qed.

End App.

(** ** The claims at work on [example_heap] *)

Lemma C1_idempotent_registration_witness :
  let h := example_heap in
  reachable h init ∧
  truthy (get h 0 "oid") = true ∧
  get h 1 "oid" = get h 0 "oid" ∧
  drain h (verify h 1 8 (verify h 0 7 init)) =
    drain h (verify h 1 8 (drain h (verify h 0 7 init))) ∧
  count_oid h (get h 0 "oid")
    (loggedInUsers (drain h (verify h 1 8 (drain h (verify h 0 7 init))))) = 1 ∧
  ∃ u,
    u ∈ loggedInUsers (drain h (verify h 1 8 (drain h (verify h 0 7 init)))) ∧
    get h u "oid" = get h 0 "oid" ∧
    calls (drain h (verify h 1 8 (drain h (verify h 0 7 init)))) =
      calls (drain h init) ++
        [Called 7 None (JObject u); Called 8 None (JObject u)].
Proof.
  intros h.
  assert (reachable h init) as Hr by (by exists []).
  assert (truthy (get h 0 "oid") = true) as H0 by (vm_compute; reflexivity).
  assert (get h 1 "oid" = get h 0 "oid") as H1 by (vm_compute; reflexivity).
  split; [exact Hr|]. split; [exact H0|]. split; [exact H1|].
  exact (C1_idempotent_registration h init 0 1 7 8 Hr H0 H1).
Defined.

Lemma C2_missing_oid_witness :
  let h := example_heap in
  (h 2 !! "oid" = None ∨ h 2 !! "oid" = Some (JString "") ∨ lacks_oid h 2) ∧
  verify h 2 5 init = call 5 (Some (NewError "No oid found")) JNull init ∧
  loggedInUsers (verify h 2 5 init) = loggedInUsers init ∧
  nextTickQueue (verify h 2 5 init) = nextTickQueue init ∧
  calls (verify h 2 5 init) =
    calls init ++ [Called 5 (Some (NewError "No oid found")) JNull].
Proof.
  intros h.
  assert (h 2 !! "oid" = None ∨ h 2 !! "oid" = Some (JString "") ∨
          lacks_oid h 2) as H by (left; vm_compute; reflexivity).
  split; [exact H|]. exact (C2_missing_oid h init 2 5 H).
Defined.


Lemma C4_directory_invariant_witness :
  let h := example_heap in
  let st := run h [CallVerify 0 7; CallVerify 1 8; RunTick] init in
  reachable h st ∧
  loggedInUsers init = [] ∧
  (∀ v, count_oid h v (loggedInUsers st) ≤ 1) ∧
  NoDup ((λ user, get h user "oid") <$> loggedInUsers st) ∧
  loggedInUsers st `prefix_of` loggedInUsers (exec h RunTick st) ∧
  (∀ v, count_oid h v (loggedInUsers (exec h RunTick st)) ≤ 1).
Proof.
  intros h st.
  assert (reachable h st) as Hr
    by (by exists [CallVerify 0 7; CallVerify 1 8; RunTick]).
  split; [exact Hr|].
  exact (C4_directory_invariant h st RunTick Hr).
Defined.

Lemma C5_api_guard_witness :
  get_api (MkRequest true None) = [Send api_payload] ∧
  get_api (MkRequest false None) = [Redirect "/login"] ∧
  ∀ body, Send body ∉ get_api (MkRequest false None).
Proof.
  split.
  - exact (proj1 (C5_api_guard (MkRequest true None)) eq_refl).
  - exact (proj2 (C5_api_guard (MkRequest false None)) eq_refl).
Defined.

Lemma C6_logout_witness :
  get_logout (MkRequest true (Some (NewError "store down"))) =
    [SessionDestroy; LogOut;
     Redirect "https://login.microsoftonline.com/common/oauth2/logout?post_logout_redirect_uri=http://localhost:3000"].
Proof.
  exact (proj1 (C6_logout (MkRequest true (Some (NewError "store down"))))).
Defined.

Lemma C7_returning_user_witness :
  let h := example_heap in
  let st := run h [CallVerify 0 7; RunTick] init in
  reachable h st ∧
  0 ∈ loggedInUsers st ∧
  get h 0 "oid" = get h 1 "oid" ∧
  loggedInUsers (verify h 1 8 st) = loggedInUsers st ∧
  loggedInUsers (drain h (verify h 1 8 st)) = loggedInUsers (drain h st) ∧
  calls (drain h (verify h 1 8 st)) =
    calls (drain h st) ++ [Called 8 None (JObject 0)].
Proof.
  intros h st.
  assert (reachable h st) as Hr by (by exists [CallVerify 0 7; RunTick]).
  assert (0 ∈ loggedInUsers st) as Hu
    by (vm_compute; apply list_elem_of_here).
  assert (get h 0 "oid" = get h 1 "oid") as Ho by (vm_compute; reflexivity).
  split; [exact Hr|]. split; [exact Hu|]. split; [exact Ho|].
  exact (C7_returning_user h st 1 8 0 Hr Hu Ho).
Defined.

Lemma C8_findUser_witness :
  let h := example_heap in
  ∃ user,
    (∀ (R : Type) (callback : option Error → JsValue → R),
       findUser h [2; 0; 1] (JString "abc") callback = callback None user) ∧
    ((∃ u before after,
        user = JObject u ∧
        [2; 0; 1] = before ++ u :: after ∧
        strict_equals (get h u "oid") (JString "abc") = true ∧
        ∀ w, w ∈ before → strict_equals (get h w "oid") (JString "abc") = false) ∨
     (user = JUndefined ∧
      ∀ w, w ∈ [2; 0; 1] →
           strict_equals (get h w "oid") (JString "abc") = false)).
Proof.
  intros h. exact (C8_findUser h [2; 0; 1] (JString "abc")).
Defined.

Lemma C9_no_lookup_error_witness :
  let h := example_heap in
  truthy (get h 0 "oid") = true ∧
  ∃ u, calls (drain h (verify h 0 7 init)) =
         calls (drain h init) ++ [Called 7 None (JObject u)].
Proof.
  intros h.
  assert (truthy (get h 0 "oid") = true) as H0 by (vm_compute; reflexivity).
  split; [exact H0|].
  exact (proj2 (proj2 (C9_no_lookup_error h)) 0 7 init H0).
Defined.




(** ** The scenario of the specification, run *)

(** Profile [{oid: "abc"}] signs in; the directory then has that one
    entry; the entry serializes to ["abc"], which deserializes to the same
    object. *)
Example scenario_abc :
  let h := example_heap in
  let st := drain h (verify h 1 7 init) in
  loggedInUsers st = [1] ∧
  calls st = [Called 7 None (JObject 1)] ∧
  serializeUser h 1 pair = (None, JString "abc") ∧
  deserializeUser h (loggedInUsers st) (JString "abc") pair = (None, JObject 1).
Proof. vm_compute. done. Qed.

(** A second profile object of the same user gets the stored object back,
    not itself. *)
Example scenario_returning :
  let h := example_heap in
  let st := drain h (verify h 1 8 (drain h (verify h 0 7 init))) in
  loggedInUsers st = [0] ∧
  calls st = [Called 7 None (JObject 0); Called 8 None (JObject 0)].
Proof. vm_compute. done. Qed.

(** A session restored with an identifier that the directory does not
    have. *)
Example scenario_unknown :
  deserializeUser example_heap [0] (JString "xyz") pair = (None, JUndefined).
Proof. vm_compute. done. Qed.

(** The hypothesis on the state is needed: in a directory with two entries
    of one [oid], which the code never builds, the second entry does not
    come back from a round trip. *)
Example round_trip_needs_invariant :
  serializeUser example_heap 1
    (λ err oid, deserializeUser example_heap [0; 1] oid pair)
  = (None, JObject 0).
Proof. vm_compute. done. Qed.

(** ** Further properties at work *)

Lemma done_called_exactly_once_witness :
  let h := example_heap in
  let ops := [CallVerify 0 7; CallVerify 2 5;
              CallDeserializeUser (JString "abc") 9; CallVerify 1 7] in
  count_called 7 (calls (run h ops init)) +
    count_waiting 7 (nextTickQueue (run h ops init)) = count_ops 7 ops ∧
  count_called 7 (calls (drain h (run h ops init))) = count_ops 7 ops.
Proof.
  intros h ops. exact (done_called_exactly_once h ops 7).
Defined.

Lemma directory_is_fold_witness :
  let h := example_heap in
  let ops := [CallVerify 0 7; RunTick; CallVerify 1 8] in
  let ops' := [CallVerify 0 7; CallVerify 1 8; CallSerializeUser 0 9] in
  verified h ops' = verified h ops ∧
  loggedInUsers (drain h (run h ops' init)) =
  loggedInUsers (drain h (run h ops init)).
Proof.
  intros h ops ops'.
  assert (verified h ops' = verified h ops) as H by (vm_compute; reflexivity).
  split; [exact H|].
  exact (proj2 (directory_is_fold h ops) ops' H).
Defined.

Lemma directory_is_what_was_verified_witness :
  let h := example_heap in
  let ops := [CallVerify 0 7; CallVerify 2 5] in
  CallVerify 0 7 ∈ ops ∧
  truthy (get h 0 "oid") = true ∧
  ∃ u, u ∈ loggedInUsers (drain h (run h ops init)) ∧
       get h u "oid" = get h 0 "oid".
Proof.
  intros h ops.
  assert (CallVerify 0 7 ∈ ops) as Hin by apply list_elem_of_here.
  assert (truthy (get h 0 "oid") = true) as Hp by (vm_compute; reflexivity).
  split; [exact Hin|]. split; [exact Hp|].
  exact (proj2 (directory_is_what_was_verified h ops) 0 7 Hin Hp).
Defined.

Lemma two_new_users_are_both_registered_witness :
  let h := example_heap_two in
  truthy (get h 0 "oid") = true ∧
  truthy (get h 1 "oid") = true ∧
  get h 0 "oid" ≠ get h 1 "oid" ∧
  loggedInUsers (drain h (verify h 1 8 (verify h 0 7 init))) =
    loggedInUsers (drain h init) ++ [0; 1] ∧
  calls (drain h (verify h 1 8 (verify h 0 7 init))) =
    calls (drain h init) ++
      [Called 7 None (JObject 0); Called 8 None (JObject 1)].
Proof.
  intros h.
  assert (truthy (get h 0 "oid") = true) as H0 by (vm_compute; reflexivity).
  assert (truthy (get h 1 "oid") = true) as H1 by (vm_compute; reflexivity).
  assert (get h 0 "oid" ≠ get h 1 "oid") as Hne
    by (vm_compute; discriminate).
  assert (∀ u, u ∈ loggedInUsers (drain h init) →
            get h u "oid" ≠ get h 0 "oid" ∧ get h u "oid" ≠ get h 1 "oid")
    as Hnew by (intros u Hu; vm_compute in Hu; inversion Hu).
  split; [exact H0|]. split; [exact H1|]. split; [exact Hne|].
  exact (two_new_users_are_both_registered h init 0 1 7 8 H0 H1 Hne Hnew).
Defined.

Lemma signed_in_user_is_restored_witness :
  let h := example_heap in
  truthy (get h 0 "oid") = true ∧
  ∃ u,
    calls (drain h (verify h 0 7 init)) =
      calls (drain h init) ++ [Called 7 None (JObject u)] ∧
    get h u "oid" = get h 0 "oid" ∧
    ∀ (ops : list (Op)) (R : Type) (k : option Error → JsValue → R),
      serializeUser h u
        (λ err oid,
           deserializeUser h
             (loggedInUsers (run h ops (drain h (verify h 0 7 init)))) oid k)
      = k None (JObject u).
Proof.
  intros h.
  assert (truthy (get h 0 "oid") = true) as H0 by (vm_compute; reflexivity).
  split; [exact H0|].
  exact (signed_in_user_is_restored h init 0 7 H0).
Defined.

Lemma replace_escaped_quotes_drops_backslashes_witness :
  let s := String backslash (String backslash (String double_quote "a")) in
  double_quote ≠ backslash ∧
  occurrences double_quote (replace_escaped_quotes s) =
  occurrences double_quote s.
Proof.
  intros s.
  assert (double_quote ≠ backslash) as Hne by (vm_compute; discriminate).
  split; [exact Hne|].
  exact (proj1 (proj2 (replace_escaped_quotes_drops_backslashes s))
           double_quote Hne).
Defined.

Lemma replace_escaped_quotes_fixed_witness :
  replace_escaped_quotes "{a:1}" = "{a:1}" ∧
  ∀ n, ¬ (String.get n "{a:1}" = Some backslash ∧
          String.get (S n) "{a:1}" = Some double_quote).
Proof.
  assert (replace_escaped_quotes "{a:1}" = "{a:1}") as H
    by (vm_compute; reflexivity).
  split; [exact H|].
  exact (proj1 (replace_escaped_quotes_fixed "{a:1}") H).
Defined.

Lemma deserializeUser_stable_witness :
  let h := example_heap in
  let st := run h [CallVerify 0 7; RunTick] init in
  deserializeUser h (loggedInUsers st) (JString "abc") pair
    = (None, JObject 0) ∧
  ∀ (R : Type) (done : option Error → JsValue → R),
    deserializeUser h
      (loggedInUsers (run h [CallVerify 1 8; RunTick] st)) (JString "abc") done
    = done None (JObject 0).
Proof.
  intros h st.
  assert (deserializeUser h (loggedInUsers st) (JString "abc") pair
          = (None, JObject 0)) as H by (vm_compute; reflexivity).
  split; [exact H|].
  exact (deserializeUser_stable h st (JString "abc") 0
           [CallVerify 1 8; RunTick] H).
Defined.

Lemma only_error_is_missing_oid_witness :
  let h := example_heap in
  let ops := [CallVerify 0 7; CallVerify 3 5; RunTick] in
  Called 5 (Some (NewError "No oid found")) JNull ∈ calls (run h ops init) ∧
  ∃ p, CallVerify p 5 ∈ ops ∧ truthy (get h p "oid") = false.
Proof.
  intros h ops.
  assert (Called 5 (Some (NewError "No oid found")) JNull
            ∈ calls (run h ops init)) as H
    by (vm_compute; apply list_elem_of_here).
  split; [exact H|].
  exact (proj2 (proj2 (only_error_is_missing_oid h ops 5 _ _ H))).
Defined.

(** The replacement on the JSON text of an object whose one value holds
    a quote, and on a backslash before an escaped quote: the second
    result still holds an escaped quote, so replacing twice is not
    replacing once. *)
Example replace_escaped_quotes_twice :
  let q := String double_quote EmptyString in
  let b := String backslash EmptyString in
  replace_escaped_quotes ("{" +:+ q +:+ "a" +:+ q +:+ ":" +:+ q +:+ "x"
                            +:+ b +:+ q +:+ "y" +:+ q +:+ "}")
    = "{" +:+ q +:+ "a" +:+ q +:+ ":" +:+ q +:+ "x" +:+ q +:+ "y" +:+ q +:+ "}" ∧
  replace_escaped_quotes (b +:+ b +:+ q) = b +:+ q ∧
  replace_escaped_quotes (replace_escaped_quotes (b +:+ b +:+ q)) = q.
Proof. vm_compute. done. Qed.
